(** * NestJs-Documentation: the items CRUD service and the JWT auth service

  A shallow embedding of the TypeScript services of the guides
  ([Nest-CRUD.md]: [ItemsService]; the JWT guide: [UsersService],
  [AuthService], [JwtStrategy], [AuthController]) and the properties the
  specification states about them.

  Layout: the embedding first (JavaScript values, then one module per
  service of the source), the theorems after it. *)

From Stdlib Require Import ZArith Lia Bool.
From stdpp Require Import base option strings list gmap.

Local Open Scope Z_scope.

(* ===================================================================== *)
(** * JavaScript values and objects *)
(* ===================================================================== *)

Module Js.

(** A JS [number] as far as identifiers need it: an integer, or [NaN]
    (what [Number(id)] gives the controller for a non-numeric route
    parameter).  [this.items.length + 1] is always an [Int]. *)
Inductive number : Type :=
| Int (z : Z)
| NaN.

(** Primitive values, the ones a JSON body puts in the fields of a flat
    record. *)
Inductive value : Type :=
| Undefined
| Null
| Bool (b : bool)
| Num (n : number)
| Str (s : string).

#[global] Instance number_eq_dec : EqDecision number.
Proof. solve_decision. Defined.

#[global] Instance value_eq_dec : EqDecision value.
Proof. solve_decision. Defined.

(** [a === b] on numbers: [NaN] equals nothing, itself included. *)
Definition number_eq (a b : number) : bool :=
  match a, b with
  | Int x, Int y => Z.eqb x y
  | _, _ => false
  end.

(** [a === b]: no coercion, operands of different types differ. *)
Definition strict_eq (a b : value) : bool :=
  match a, b with
  | Undefined, Undefined => true
  | Null, Null => true
  | Bool x, Bool y => Bool.eqb x y
  | Num x, Num y => number_eq x y
  | Str x, Str y => String.eqb x y
  | _, _ => false
  end.

(** A plain object: its own enumerable properties, by name.  Two objects
    are deep-equal when they are equal as maps. *)
Abbreviation obj := (gmap string value).

(** [o.k]: reading a property that is not there gives [undefined]. *)
Definition get (o : obj) (k : string) : value :=
  default Undefined (o !! k).

(** [{ ...a, ...b }]: the properties of [a], overwritten by those of
    [b]. *)
Definition spread (a b : obj) : obj := b ∪ a.

(** [Array.prototype.find]. *)
Fixpoint find {A : Type} (p : A → bool) (l : list A) : option A :=
  match l with
  | [] => None
  | x :: l' => if p x then Some x else find p l'
  end.

(** [Array.prototype.findIndex]; [None] stands for the result [-1]. *)
Fixpoint findIndex {A : Type} (p : A → bool) (l : list A) : option nat :=
  match l with
  | [] => None
  | x :: l' => if p x then Some 0%nat else S <$> findIndex p l'
  end.

End Js.

Import Js.

(* ===================================================================== *)
(** * [src/items/items.service.ts] *)
(* ===================================================================== *)

Module ItemsService.

(** [CreateItemDto]: at run time a plain object with the fields of the
    request body ([id?], [name], [description]). *)
Abbreviation CreateItemDto := (gmap string value).

(** The state of the service is its private array
    [items: CreateItemDto[]]; every method below takes it and, when it
    writes it, returns the new one.  Each request body is an object of
    its own, so stored entities are modelled by value. *)

(** [item => item.id === id] *)
Definition has_id (id : number) (item : CreateItemDto) : bool :=
  strict_eq (get item "id") (Num id).

(** [item.id = this.items.length + 1; this.items.push(item); return item] *)
Definition create (items : list CreateItemDto) (item : CreateItemDto)
  : list CreateItemDto * CreateItemDto :=
  let item' := <["id" := Num (Int (Z.of_nat (length items) + 1))]> item in
  (items ++ [item'], item').

(** [return this.items] *)
Definition findAll (items : list CreateItemDto) : list CreateItemDto :=
  items.

(** [return this.items.find(item => item.id === id)]; [None] is
    [undefined]. *)
Definition findOne (items : list CreateItemDto) (id : number)
  : option CreateItemDto :=
  find (has_id id) items.

(** [[
    const itemIndex = this.items.findIndex(item => item.id === id);
    if (itemIndex === -1) return null;
    this.items[itemIndex] = { ...this.items[itemIndex], ...updatedItem };
    return this.items[itemIndex];
    ]]
    [None] is [null].  [itemIndex] comes from [findIndex], so it is in
    range: neither the spread of a missing element nor the growth of the
    array on assignment can happen. *)
Definition update (items : list CreateItemDto) (id : number)
    (updatedItem : CreateItemDto)
  : list CreateItemDto * option CreateItemDto :=
  match findIndex (has_id id) items with
  | None => (items, None)
  | Some itemIndex =>
      let merged := spread (default ∅ (items !! itemIndex)) updatedItem in
      let items' := <[itemIndex := merged]> items in
      (items', items' !! itemIndex)
  end.

(** [[
    const initialLength = this.items.length;
    this.items = this.items.filter(item => item.id !== id);
    return this.items.length < initialLength;
    ]] *)
Definition remove (items : list CreateItemDto) (id : number)
  : list CreateItemDto * bool :=
  let initialLength := length items in
  let items' := List.filter (λ item, negb (has_id id item)) items in
  (items', (length items' <? initialLength)%nat).

(** A call to the service and what it answers. *)
Inductive call : Type :=
| Create (item : CreateItemDto)
| FindAll
| FindOne (id : number)
| Update (id : number) (updatedItem : CreateItemDto)
| Remove (id : number).

Inductive answer : Type :=
| Created (item : CreateItemDto)
| All (items : list CreateItemDto)
| Found (item : option CreateItemDto)
| Updated (item : option CreateItemDto)
| Removed (shrank : bool).

Definition step (items : list CreateItemDto) (c : call)
  : list CreateItemDto * answer :=
  match c with
  | Create item => let '(items', r) := create items item in (items', Created r)
  | FindAll => (items, All (findAll items))
  | FindOne id => (items, Found (findOne items id))
  | Update id updatedItem =>
      let '(items', r) := update items id updatedItem in (items', Updated r)
  | Remove id => let '(items', r) := remove items id in (items', Removed r)
  end.

(** A sequence of calls, from the left; the answers in call order. *)
Fixpoint run (items : list CreateItemDto) (cs : list call)
  : list CreateItemDto * list answer :=
  match cs with
  | [] => (items, [])
  | c :: cs' =>
      let '(items', a) := step items c in
      let '(items'', answers) := run items' cs' in
      (items'', a :: answers)
  end.

(** The service starts with [items = []]. *)
Definition initial : list CreateItemDto := [].

Definition is_create_or_remove (c : call) : bool :=
  match c with
  | Create _ | Remove _ => true
  | _ => false
  end.

(** The identifiers of a collection that has only grown: the entity at
    index [i] has identifier [i + 1]. *)
Definition numbered (items : list CreateItemDto) : Prop :=
  ∀ (i : nat) (e : CreateItemDto),
    items !! i = Some e → get e "id" = Num (Int (Z.of_nat i + 1)).

End ItemsService.

(* ===================================================================== *)
(** * Results of [async] methods *)
(* ===================================================================== *)

(** What a rejected promise carries in the auth guide. *)
Inductive error : Type :=
| DuplicateKey      (* MongoDB E11000: a unique index refuses the write *)
| IllegalArguments  (* bcryptjs, given an argument that is not a string *)
| Conflict          (* Nest's [ConflictException], the 409 response;
                       nothing in the source throws it *)
| Unauthorized.     (* the 401 of the passport guard *)

(** An awaited promise: resolved with a value or rejected. *)
Inductive promise (A : Type) : Type :=
| Resolved (a : A)
| Rejected (e : error).

Arguments Resolved {A} a.
Arguments Rejected {A} e.

Definition promise_map {A B : Type} (f : A → B) (p : promise A) : promise B :=
  match p with
  | Resolved a => Resolved (f a)
  | Rejected e => Rejected e
  end.

(* ===================================================================== *)
(** * External collaborators: [bcryptjs] and the token signature *)
(* ===================================================================== *)

(** [bcryptjs].  [bcrypt_hash s rounds salt] is [bcrypt.hash(s, rounds)]
    when the library draws [salt]; [bcrypt_compare s hash] is
    [bcrypt.compare(s, hash)].  On strings neither one rejects; given
    anything else both reject ([IllegalArguments]). *)
Class Bcrypt : Type := {
  bcrypt_hash : string → nat → string → string;
  bcrypt_compare : string → string → bool
}.

(* ===================================================================== *)
(** * [users/user.schema.ts] and [users/users.service.ts] *)
(* ===================================================================== *)

Module User.

(** A stored [UserDocument]: the two [@Prop] fields of the schema, both
    strings, and the [_id] of the document ([user._id] in
    [AuthService.login]).  The version key [__v] Mongoose adds is 0 on
    every document: the source saves a user once and never updates it. *)
Record t : Type := mk {
  _id : string;
  username : string;
  password : string
}.

(** [user.toObject()]: the document as a plain object,
    [{ _id, username, password, __v: 0 }]. *)
Definition toObject (user : t) : obj :=
  {[ "_id" := Str (_id user);
     "username" := Str (username user);
     "password" := Str (password user);
     "__v" := Num (Int 0) ]}.

End User.

(** The Mongoose model behind [userModel]; its state is the collection, in
    insertion order. *)
Module UserModel.

(** Modelled from the spec: [save] of a new document, run by Mongoose and
    MongoDB, which are not part of the source.  "Credential Record:
    username (unique)"; "Register: fails if username already exists;
    otherwise [...] persists {username, hash}".  The schema asks for it
    with [@Prop({ unique: true })] on [username]; the rejection is the
    database's duplicate-key error. *)
Definition save (users : list User.t) (doc : User.t)
  : list User.t * promise User.t :=
  if existsb (λ u, String.eqb (User.username u) (User.username doc)) users
  then (users, Rejected DuplicateKey)
  else (users ++ [doc], Resolved doc).

End UserModel.

Module UsersService.

(** [this.userModel.findOne({ username }).exec()]; [None] is [null]. *)
Definition findByUsername (users : list User.t) (username : string)
  : option User.t :=
  find (λ u, String.eqb (User.username u) username) users.

(** [const newUser = new this.userModel(user); return newUser.save()],
    for [user = { username, password }]; [oid] is the [_id] the new
    document is given. *)
Definition create (users : list User.t) (username password : string)
    (oid : string)
  : list User.t * promise User.t :=
  let newUser := User.mk oid username password in
  UserModel.save users newUser.

End UsersService.

(* ===================================================================== *)
(** * [@nestjs/jwt] and [passport-jwt] *)
(* ===================================================================== *)

Module Jwt.

(** The payload of a token: the two claims [AuthService.login] puts in,
    and the issuance and expiry times (seconds) the library adds. *)
Record payload : Type := mkPayload {
  username : value;
  sub : value;
  iat : Z;
  exp : Z
}.

(** A token, decoded: its payload and its signature. *)
Record token : Type := mkToken {
  body : payload;
  signature : string
}.

(** The keyed signature over the encoded payload (HS256). *)
Class Mac : Type := {
  mac : string → payload → string
}.

(** Why a token is refused. *)
Inductive failure : Type :=
| InvalidSignature
| TokenExpired.

Section Library.
Context `{Mac}.

(** Modelled from the spec: [JwtService.sign] of [@nestjs/jwt], which is
    not part of the source.  "Serializes claims (subject identifier,
    username) plus issuance time and a fixed expiry horizon into a signed
    token using a server-held secret key." *)
Definition sign (secret : string) (expiresIn : Z) (now : Z)
    (username sub : value) : token :=
  let p := mkPayload username sub now (now + expiresIn) in
  mkToken p (mac secret p).

(** Modelled from the spec: the verification [passport-jwt] runs before
    [JwtStrategy.validate], which is not part of the source.  "Checks
    signature validity and expiry; on success extracts claims." *)
Definition verify (secretOrKey : string) (now : Z) (t : token)
  : failure + payload :=
  if decide (signature t = mac secretOrKey (body t)) then
    if now <? exp (body t) then inr (body t) else inl TokenExpired
  else inl InvalidSignature.

End Library.

End Jwt.

(* ===================================================================== *)
(** * [auth/auth.module.ts], [auth/jwt.strategy.ts], [auth/auth.service.ts] *)
(* ===================================================================== *)

Module AuthModule.

(** [JwtModule.register({ secret: 'jwt_secret', signOptions: { expiresIn: '1h' } })] *)
Definition secret : string := "jwt_secret".

(** ['1h'], in seconds. *)
Definition expiresIn : Z := 3600.

End AuthModule.

Module JwtStrategy.

(** [secretOrKey: 'jwt_secret'] *)
Definition secretOrKey : string := "jwt_secret".

(** What [validate] returns, and the guard stores in [req.user]. *)
Record user : Type := mkUser {
  userId : value;
  username : value
}.

(** [return { userId: payload.sub, username: payload.username }] *)
Definition validate (payload : Jwt.payload) : user :=
  mkUser (Jwt.sub payload) (Jwt.username payload).

Section Guard.
Context `{Jwt.Mac}.

(** [JwtAuthGuard]: the bearer token of the request is verified with the
    strategy's key; [validate] runs on its payload, any failure is a 401. *)
Definition authenticate (now : Z) (bearer : option Jwt.token)
  : promise user :=
  match bearer with
  | None => Rejected Unauthorized
  | Some t =>
      match Jwt.verify secretOrKey now t with
      | inr payload => Resolved (validate payload)
      | inl _ => Rejected Unauthorized
      end
  end.

End Guard.

End JwtStrategy.

Module AuthService.

Section Service.
Context `{Bcrypt} `{Jwt.Mac}.

(** [[
    const hashed = await bcrypt.hash(password, 10);
    return this.usersService.create({ username, password: hashed });
    ]] *)
Definition register (users : list User.t) (username password : string)
    (salt oid : string)
  : list User.t * promise User.t :=
  let hashed := bcrypt_hash password 10 salt in
  UsersService.create users username hashed oid.

(** [[
    const user = await this.usersService.findByUsername(username);
    if (user && await bcrypt.compare(password, user.password)) {
      const { password, ...result } = user.toObject();
      return result;
    }
    return null;
    ]] *)
Definition validateUser (users : list User.t) (username password : string)
  : promise (option obj) :=
  match UsersService.findByUsername users username with
  | Some user =>
      if bcrypt_compare password (User.password user)
      then let result := delete "password" (User.toObject user) in
           Resolved (Some result)
      else Resolved None
  | None => Resolved None
  end.

(** [validateUser] on a secret as a request body holds it.  The signature
    says [password: string], and nothing checks it.  With a secret that is
    not a string the same lines run: the lookup as before, [user && ...]
    stops at an absent user, and [bcrypt.compare], reached for a stored
    one, rejects (bcryptjs refuses an argument that is not a string). *)
Definition validateUser_unchecked (users : list User.t) (username : string)
    (password : value)
  : promise (option obj) :=
  match password with
  | Str password => validateUser users username password
  | _ =>
      match UsersService.findByUsername users username with
      | Some _ => Rejected IllegalArguments
      | None => Resolved None
      end
  end.

(** [[
    const payload = { username: user.username, sub: user._id };
    return { access_token: this.jwtService.sign(payload) };
    ]]
    [now] is the clock at the time of signing. *)
Definition login (now : Z) (user : obj) : Jwt.token :=
  Jwt.sign AuthModule.secret AuthModule.expiresIn now
    (get user "username") (get user "_id").

End Service.

End AuthService.

(* ===================================================================== *)
(** * [auth/auth.controller.ts] *)
(* ===================================================================== *)

Module AuthController.

Section Controller.
Context `{Bcrypt} `{Jwt.Mac}.

(** The body of [POST /auth/login] when it is not a rejection. *)
Inductive login_response : Type :=
| InvalidCredentials                      (* [{ message: 'Invalid credentials' }] *)
| AccessToken (access_token : Jwt.token). (* [{ access_token }] *)

(** [return this.authService.register(body.username, body.password)]: the
    saved document is the response body. *)
Definition register (users : list User.t) (username password : string)
    (salt oid : string)
  : list User.t * promise obj :=
  let '(users', saved) := AuthService.register users username password salt oid in
  (users', promise_map User.toObject saved).

(** [[
    const user = await this.authService.validateUser(body.username, body.password);
    if (!user) return { message: 'Invalid credentials' };
    return this.authService.login(user);
    ]]
    The body is not validated: [password] is [body.password] as it
    arrives, a string or not ([Undefined] when the field is missing), and
    a rejection of [validateUser] is the handler's.  [body.username] is
    taken to be a string; what a lookup with another value answers is the
    database's affair. *)
Definition login (users : list User.t) (now : Z) (username : string)
    (password : value)
  : promise login_response :=
  match AuthService.validateUser_unchecked users username password with
  | Resolved (Some user) => Resolved (AccessToken (AuthService.login now user))
  | Resolved None => Resolved InvalidCredentials
  | Rejected e => Rejected e
  end.

(** [@UseGuards(JwtAuthGuard) getProfile(req) { return req.user; }] *)
Definition getProfile (now : Z) (bearer : option Jwt.token)
  : promise JwtStrategy.user :=
  JwtStrategy.authenticate now bearer.

End Controller.

End AuthController.

(* ===================================================================== *)
(** * Concrete data used in examples *)
(* ===================================================================== *)

Module Examples.

Definition pen : obj := {[ "name" := Str "pen"; "description" := Str "blue" ]}.
Definition ink : obj := {[ "name" := Str "ink"; "description" := Str "black" ]}.
Definition cap : obj := {[ "name" := Str "cap"; "description" := Str "red" ]}.

(** [ink] as stored by the second [create] of a fresh service. *)
Definition ink2 : obj := <["id" := Num (Int 2)]> ink.

(** What is left after [create(pen); create(ink); remove(1)]. *)
Definition after_removal : list obj := [ink2].

Definition pen1 : obj := <["id" := Num (Int 1)]> pen.

(** A body that carries an [id] of its own. *)
Definition renumber : obj := {[ "id" := Num (Int 7) ]}.

(** A stand-in for [bcryptjs] that can be run: a marker written in front
    of the secret, the salt left out. *)
#[export] Instance plain_bcrypt : Bcrypt := {|
  bcrypt_hash s rounds salt := String.append "$2a$" s;
  bcrypt_compare s hash := String.eqb hash (String.append "$2a$" s)
|}.

Definition ram : User.t :=
  User.mk "u1" "ram" (bcrypt_hash "1234" 10 "abc").

(** A stand-in for the HS256 signature that can be run. *)
#[export] Instance plain_mac : Jwt.Mac := {|
  Jwt.mac key p :=
    match Jwt.sub p with
    | Str s => String.append key s
    | _ => key
    end
|}.

End Examples.

(* ===================================================================== *)
(** * Counting the calls of a run *)
(* ===================================================================== *)

Module ItemsRuns.
Import ItemsService.

Definition is_create (c : call) : bool :=
  match c with
  | Create _ => true
  | _ => false
  end.

(** How many [create] calls a sequence of calls holds. *)
Definition creates (cs : list call) : nat :=
  length (List.filter is_create cs).

End ItemsRuns.

(* ===================================================================== *)
(** * Arrays: [find] and [findIndex] *)
(* ===================================================================== *)

Section Arrays.
Context {A : Type} (p : A → bool).

Lemma find_None (l : list A) :
  find p l = None ↔ ∀ x, x ∈ l → p x = false.
Proof.
  induction l as [|a l IH]; simpl.
  - split; [intros _ x Hx; inversion Hx | done].
  - destruct (p a) eqn:Ha.
    + split; [done | intros Hall].
      specialize (Hall a (list_elem_of_here _ _)). congruence.
    + rewrite IH. split.
      * intros Hall x Hx. apply elem_of_cons in Hx as [-> | Hx]; auto.
      * intros Hall x Hx. apply Hall. by apply list_elem_of_further.
Qed.

Lemma find_Some (l : list A) (x : A) :
  find p l = Some x → x ∈ l ∧ p x = true.
Proof.
  induction l as [|a l IH]; simpl; [done |].
  destruct (p a) eqn:Ha.
  - intros [= <-]. split; [apply list_elem_of_here | done].
  - intros Hf. destruct (IH Hf) as [Hin Hp].
    split; [by apply list_elem_of_further | done].
Qed.

Lemma find_app (l1 l2 : list A) :
  find p (l1 ++ l2) =
  match find p l1 with Some x => Some x | None => find p l2 end.
Proof.
  induction l1 as [|a l1 IH]; simpl; [done |].
  by destruct (p a).
Qed.

Lemma find_filter_negb (l : list A) :
  find p (List.filter (λ x, negb (p x)) l) = None.
Proof.
  apply find_None. intros x Hx.
  apply list_elem_of_In, filter_In in Hx as [_ Hx].
  by destruct (p x).
Qed.

(** [findIndex] answers the first position that satisfies [p]. *)
Lemma findIndex_Some (l : list A) (i : nat) :
  findIndex p l = Some i ↔
  ∃ x, l !! i = Some x ∧ p x = true
       ∧ ∀ j y, (j < i)%nat → l !! j = Some y → p y = false.
Proof.
  revert i. induction l as [|a l IH]; intros i; simpl.
  - split; [done | by intros (x & Hx & _)].
  - destruct (p a) eqn:Ha.
    + split.
      * intros [= <-]. exists a. repeat split; [done | intros; lia].
      * intros (x & Hx & Hp & Hfirst).
        destruct i as [|i]; [done |].
        specialize (Hfirst 0%nat a ltac:(lia) eq_refl). congruence.
    + split.
      * destruct (findIndex p l) as [k|] eqn:Hk; simpl; [| done].
        intros [= <-].
        destruct (proj1 (IH k) eq_refl) as (x & Hx & Hp & Hfirst).
        exists x. repeat split; [done.. |].
        intros [|j] y Hj Hy; simpl in Hy; [congruence |].
        eapply Hfirst; [| done]. lia.
      * intros (x & Hx & Hp & Hfirst).
        destruct i as [|i]; simpl in Hx; [congruence |].
        assert (findIndex p l = Some i) as ->; [| done].
        apply IH. exists x. repeat split; [done.. |].
        intros j y Hj Hy. apply (Hfirst (S j) y); [lia | done].
Qed.

Lemma findIndex_None (l : list A) :
  findIndex p l = None ↔ ∀ x, x ∈ l → p x = false.
Proof.
  induction l as [|a l IH]; simpl.
  - split; [intros _ x Hx; inversion Hx | done].
  - destruct (p a) eqn:Ha.
    + split; [done | intros Hall].
      specialize (Hall a (list_elem_of_here _ _)). congruence.
    + split.
      * intros Hf x Hx.
        apply elem_of_cons in Hx as [-> | Hx]; [done |].
        apply IH; [| done]. by destruct (findIndex p l).
      * intros Hall.
        assert (findIndex p l = None) as ->; [| done].
        apply IH. intros x Hx. apply Hall. by apply list_elem_of_further.
Qed.

Lemma findIndex_is_Some (l : list A) (x : A) :
  x ∈ l → p x = true → is_Some (findIndex p l).
Proof.
  intros Hin Hp. destruct (findIndex p l) eqn:Hf; [by eexists |].
  rewrite findIndex_None in Hf. specialize (Hf x Hin). congruence.
Qed.

(** [find] is the element at [findIndex]. *)
Lemma find_findIndex (l : list A) :
  find p l = findIndex p l ≫= (l !!.).
Proof.
  induction l as [|a l IH]; simpl; [done |].
  destruct (p a); [done |].
  rewrite IH. by destruct (findIndex p l).
Qed.

End Arrays.

(* ===================================================================== *)
(** * The items service *)
(* ===================================================================== *)

Section Items.
Import ItemsService Examples.

Lemma has_id_insert (id : number) (v : value) (item : CreateItemDto) :
  has_id id (<["id" := v]> item) = strict_eq v (Num id).
Proof. unfold has_id, get. by rewrite lookup_insert_eq. Qed.

Lemma filter_sublist {A : Type} (f : A → bool) (l : list A) :
  sublist (List.filter f l) l.
Proof.
  induction l as [|a l IH]; simpl; [constructor |].
  destruct (f a); by constructor.
Qed.

(** [filter] shortens an array exactly when it drops an element. *)
Lemma filter_length_lt {A : Type} (f : A → bool) (l : list A) :
  (length (List.filter f l) < length l)%nat ↔ ∃ x, x ∈ l ∧ f x = false.
Proof.
  induction l as [|a l IH]; simpl.
  - split; [lia | intros (x & Hx & _); inversion Hx].
  - pose proof (List.filter_length_le f l) as Hle.
    destruct (f a) eqn:Ha; simpl.
    + split.
      * intros Hlt. destruct (proj1 IH ltac:(lia)) as (x & Hx & Hfx).
        exists x. split; [by apply list_elem_of_further | done].
      * intros (x & Hx & Hfx).
        apply elem_of_cons in Hx as [-> | Hx]; [congruence |].
        apply -> Nat.succ_lt_mono. apply IH. eauto.
    + split; [| lia]. intros _. exists a.
      split; [apply list_elem_of_here | done].
Qed.

Lemma numbered_initial : numbered initial.
Proof. intros i e Hi. unfold initial in Hi. by rewrite lookup_nil in Hi. Qed.

Lemma numbered_create (items : list CreateItemDto) (item : CreateItemDto) :
  numbered items → numbered (create items item).1.
Proof.
  intros Hnum i e Hi. simpl in Hi.
  apply lookup_app_Some in Hi as [Hi | [Hge Hi]]; [by apply Hnum |].
  apply list_lookup_singleton_Some in Hi as [Hi <-].
  unfold get. rewrite lookup_insert_eq. simpl.
  do 2 f_equal. lia.
Qed.

(** In such a collection the next identifier is not in use. *)
Lemma numbered_fresh (items : list CreateItemDto) :
  numbered items →
  ∀ e, e ∈ items → has_id (Int (Z.of_nat (length items) + 1)) e = false.
Proof.
  intros Hnum e He. apply list_elem_of_lookup in He as [i Hi].
  pose proof (lookup_lt_Some _ _ _ Hi) as Hlt.
  unfold has_id. rewrite (Hnum i e Hi). simpl.
  apply Z.eqb_neq. lia.
Qed.

(** C1, as amended: in every collection in which no stored entity already
    has the identifier [length + 1], [create(X)] followed by [findOne] of
    the identifier [create] assigned returns [X] with that identifier in
    its [id] field. *)
Theorem create_then_findOne (items : list CreateItemDto) (item : CreateItemDto) :
  (∀ e, e ∈ items → has_id (Int (Z.of_nat (length items) + 1)) e = false) →
  let '(items', stored) := create items item in
  get stored "id" = Num (Int (Z.of_nat (length items) + 1)) ∧
  findOne items' (Int (Z.of_nat (length items) + 1))
  = Some (<["id" := Num (Int (Z.of_nat (length items) + 1))]> item).
Proof.
  intros Hfresh. simpl. split.
  - unfold get. by rewrite lookup_insert_eq.
  - unfold findOne. rewrite find_app.
    apply find_None in Hfresh. rewrite Hfresh. simpl.
    rewrite has_id_insert. simpl strict_eq.
    by rewrite Z.eqb_refl.
Qed.

Lemma create_then_findOne_witness :
  (∀ e, e ∈ [pen1] → has_id (Int (Z.of_nat (length [pen1]) + 1)) e = false) ∧
  let '(items', stored) := create [pen1] ink in
  get stored "id" = Num (Int 2) ∧
  findOne items' (Int 2) = Some (<["id" := Num (Int 2)]> ink).
Proof.
  assert (∀ e, e ∈ [pen1] → has_id (Int (Z.of_nat (length [pen1]) + 1)) e = false)
    as Hfresh.
  { intros e He. apply list_elem_of_singleton in He. subst e. reflexivity. }
  split; [exact Hfresh |].
  exact (create_then_findOne [pen1] ink Hfresh).
Defined.

(** C1 as the specification states it fails after a deletion:
    [create(pen); create(ink); remove(1)] leaves [ink] alone with
    identifier 2, [create(cap)] assigns 2 again, and [findOne(2)] answers
    [ink]. *)
Lemma create_then_findOne_reused_id :
  (run initial [Create pen; Create ink; Remove (Int 1)]).1 = after_removal ∧
  let '(items', stored) := create after_removal cap in
  get stored "id" = Num (Int 2) ∧
  findOne items' (Int 2) = Some ink2 ∧
  findOne items' (Int 2) ≠ Some (<["id" := Num (Int 2)]> cap).
Proof.
  split; [reflexivity |]. simpl.
  split; [reflexivity |].
  split; [reflexivity |].
  intros Heq. vm_compute in Heq. discriminate Heq.
Qed.

(** C2: [create] gives the new entity the identifier [length + 1], appends
    it and returns it; and some sequence of [create] and [remove] calls on
    a fresh service answers two different entities with the same
    identifier, both stored at the end (so the identifier is not one more
    than the largest in use). *)
Theorem create_assigns_length_plus_one :
  (∀ (items : list CreateItemDto) (item : CreateItemDto),
     create items item
     = (items ++ [<["id" := Num (Int (Z.of_nat (length items) + 1))]> item],
        <["id" := Num (Int (Z.of_nat (length items) + 1))]> item)) ∧
  (∃ (cs : list call) (i j : nat) (e1 e2 : CreateItemDto),
     forallb is_create_or_remove cs = true ∧
     let '(items, answers) := run initial cs in
     i ≠ j ∧
     answers !! i = Some (Created e1) ∧ answers !! j = Some (Created e2) ∧
     e1 ≠ e2 ∧ get e1 "id" = get e2 "id" ∧
     items = [e1; e2]).
Proof.
  split; [done |].
  exists [Create pen; Create ink; Remove (Int 1); Create cap], 1%nat, 3%nat,
    ink2, (<["id" := Num (Int 2)]> cap).
  split; [reflexivity |]. simpl.
  split; [lia |].
  split; [reflexivity |].
  split; [reflexivity |].
  split; [| split; reflexivity].
  intros Heq. vm_compute in Heq. discriminate Heq.
Qed.

(** C3: when some stored entity has identifier [id], [update(id, partial)]
    replaces the first such entity, at its own position, by its shallow
    merge with [partial] (the fields of [partial] overwritten, the others
    kept), leaves every other position alone and returns the merged
    entity; when none has, it returns [null] and the collection is
    unchanged. *)
Theorem update_shallow_merge (items : list CreateItemDto) (id : number)
    (partial : CreateItemDto) :
  ((∃ e, e ∈ items ∧ has_id id e = true) →
   ∃ (i : nat) (old merged : CreateItemDto),
     items !! i = Some old ∧ has_id id old = true ∧
     (∀ j e', (j < i)%nat → items !! j = Some e' → has_id id e' = false) ∧
     update items id partial = (<[i := merged]> items, Some merged) ∧
     (∀ k v, partial !! k = Some v → merged !! k = Some v) ∧
     (∀ k, partial !! k = None → merged !! k = old !! k) ∧
     <[i := merged]> items !! i = Some merged ∧
     length (<[i := merged]> items) = length items ∧
     (∀ j, j ≠ i → <[i := merged]> items !! j = items !! j)) ∧
  ((∀ e, e ∈ items → has_id id e = false) →
   update items id partial = (items, None)).
Proof.
  split.
  - intros (e & Hin & Hid).
    destruct (findIndex_is_Some (has_id id) items e Hin Hid) as [i Hi].
    pose proof Hi as Hi'.
    apply findIndex_Some in Hi' as (old & Hold & Hidold & Hfirst).
    pose proof (lookup_lt_Some _ _ _ Hold) as Hlt.
    exists i, old, (spread old partial).
    split; [done |]. split; [done |]. split; [done |].
    split.
    { unfold update. rewrite Hi, Hold. simpl.
      by rewrite list_lookup_insert_eq. }
    split.
    { intros k v Hk. unfold spread. by apply lookup_union_Some_l. }
    split.
    { intros k Hk. unfold spread. by apply lookup_union_r. }
    split; [by apply list_lookup_insert_eq |].
    split; [apply length_insert |].
    intros j Hj. by apply list_lookup_insert_ne.
  - intros Hnone. unfold update.
    by rewrite (proj2 (findIndex_None (has_id id) items) Hnone).
Qed.

Lemma update_shallow_merge_witness :
  (∃ e, e ∈ [pen1; ink2] ∧ has_id (Int 2) e = true) ∧
  (∀ e, e ∈ [pen1; ink2] → has_id (Int 5) e = false) ∧
  (∃ (i : nat) (old merged : CreateItemDto),
     [pen1; ink2] !! i = Some old ∧
     update [pen1; ink2] (Int 2) cap = (<[i := merged]> [pen1; ink2], Some merged) ∧
     merged !! "name" = Some (Str "cap") ∧ merged !! "id" = Some (Num (Int 2))) ∧
  update [pen1; ink2] (Int 5) cap = ([pen1; ink2], None).
Proof.
  assert (∃ e, e ∈ [pen1; ink2] ∧ has_id (Int 2) e = true) as Hsome.
  { exists ink2. split; [| reflexivity].
    apply list_elem_of_further, list_elem_of_here. }
  assert (∀ e, e ∈ [pen1; ink2] → has_id (Int 5) e = false) as Hnone.
  { intros e He. apply elem_of_cons in He as [-> | He]; [reflexivity |].
    apply list_elem_of_singleton in He. subst e. reflexivity. }
  split; [exact Hsome |]. split; [exact Hnone |]. split.
  - destruct (proj1 (update_shallow_merge [pen1; ink2] (Int 2) cap) Hsome)
      as (i & old & merged & Hold & Hid & _ & Hupd & Hover & Hkeep & _).
    exists i, old, merged.
    split; [exact Hold |]. split; [exact Hupd |].
    split; [apply Hover; reflexivity |].
    rewrite Hkeep; [| reflexivity].
    unfold update in Hupd. simpl in Hupd.
    injection Hupd as Hl _.
    destruct i as [|[|i]]; simpl in Hold.
    + injection Hold as <-. discriminate Hid.
    + injection Hold as <-. reflexivity.
    + discriminate Hold.
  - exact (proj2 (update_shallow_merge [pen1; ink2] (Int 5) cap) Hnone).
Defined.

(** C4: [remove(id)] keeps exactly the entities whose identifier is not
    [id], in their order; it answers [true] exactly when the collection
    got shorter, that is when some entity had the identifier; and
    [findOne(id)] on what is left finds nothing. *)
Theorem remove_then_findOne (items : list CreateItemDto) (id : number) :
  let '(items', shrank) := remove items id in
  (∀ e, e ∈ items' ↔ e ∈ items ∧ has_id id e = false) ∧
  sublist items' items ∧
  (shrank = true ↔ (length items' < length items)%nat) ∧
  (shrank = true ↔ ∃ e, e ∈ items ∧ has_id id e = true) ∧
  findOne items' id = None.
Proof.
  simpl.
  assert (∀ b, (b <? length items)%nat = true ↔ (b < length items)%nat)
    as Hltb by (intros b; apply Nat.ltb_lt).
  split; [| split; [| split; [| split]]].
  - intros e. rewrite list_elem_of_In, filter_In, <- list_elem_of_In.
    by rewrite negb_true_iff.
  - apply filter_sublist.
  - apply Hltb.
  - rewrite Hltb, filter_length_lt.
    split; intros (e & He & Hid); exists e; split; try done.
    + by apply negb_false_iff.
    + by rewrite Hid.
  - apply find_filter_negb.
Qed.

Lemma remove_then_findOne_witness :
  let '(items', shrank) := remove [pen1; ink2] (Int 1) in
  (∀ e, e ∈ items' ↔ e ∈ [pen1; ink2] ∧ has_id (Int 1) e = false) ∧
  sublist items' [pen1; ink2] ∧
  (shrank = true ↔ (length items' < length [pen1; ink2])%nat) ∧
  (shrank = true ↔ ∃ e, e ∈ [pen1; ink2] ∧ has_id (Int 1) e = true) ∧
  findOne items' (Int 1) = None.
Proof. exact (remove_then_findOne [pen1; ink2] (Int 1)). Defined.

(** When the only entity with identifier [id] is updated with a body whose
    own [id] is another value, no entity has identifier [id] afterwards. *)
Lemma update_overwrites_id (items : list CreateItemDto) (id : number)
    (partial : CreateItemDto) (v : value) (i : nat) :
  findIndex (has_id id) items = Some i →
  (∀ j e, j ≠ i → items !! j = Some e → has_id id e = false) →
  partial !! "id" = Some v → strict_eq v (Num id) = false →
  let '(items', r) := update items id partial in
  (∃ e, r = Some e ∧ items' !! i = Some e ∧ e !! "id" = Some v) ∧
  findOne items' id = None ∧ length items' = length items.
Proof.
  intros Hi Hothers Hv Hne.
  pose proof Hi as Hi'.
  apply findIndex_Some in Hi' as (old & Hold & _ & _).
  pose proof (lookup_lt_Some _ _ _ Hold) as Hlt.
  unfold update. rewrite Hi, Hold. simpl.
  rewrite list_lookup_insert_eq by done.
  split; [| split].
  - eexists. split; [done |]. split; [done |].
    unfold spread. by apply lookup_union_Some_l.
  - apply find_None. intros e He.
    apply list_elem_of_lookup in He as [j Hj].
    destruct (decide (j = i)) as [-> | Hji].
    + rewrite list_lookup_insert_eq in Hj by done. injection Hj as <-.
      unfold has_id, get, spread.
      by rewrite (lookup_union_Some_l _ _ _ _ Hv).
    + rewrite list_lookup_insert_ne in Hj by done. by eapply Hothers.
  - apply length_insert.
Qed.

(** C10: the merge of [update] does not protect [id]: for some stored
    entity with identifier [id] and some body whose [id] is another value
    [v], [update(id, body)] stores and returns the entity with identifier
    [v]; [findOne(id)] then finds nothing, and the collection is as long as
    before. *)
Theorem update_can_change_id :
  ∃ (items : list CreateItemDto) (id : number) (partial : CreateItemDto)
    (v : value) (old : CreateItemDto),
    findOne items id = Some old ∧
    partial !! "id" = Some v ∧ strict_eq v (Num id) = false ∧
    let '(items', r) := update items id partial in
    (∃ e, r = Some e ∧ e ∈ items' ∧ get e "id" = v) ∧
    findOne items' id = None ∧
    length items' = length items.
Proof.
  exists [pen1], (Int 1), renumber, (Num (Int 7)), pen1.
  split; [reflexivity |]. split; [reflexivity |]. split; [reflexivity |].
  pose proof (update_overwrites_id [pen1] (Int 1) renumber (Num (Int 7)) 0%nat)
    as Hupd.
  destruct (update [pen1] (Int 1) renumber) as [items' r].
  destruct Hupd as ((e & Hr & He & Hv) & Hfind & Hlen); try reflexivity.
  { intros [|j] e Hj He; [done | discriminate He]. }
  split; [| done].
  exists e. split; [done |]. split.
  - apply list_elem_of_lookup. eauto.
  - unfold get. by rewrite Hv.
Qed.

End Items.

(* ===================================================================== *)
(** * Registration and credential validation *)
(* ===================================================================== *)

Section Credentials.
Context `{Bcrypt}.
Import UsersService AuthService.

Lemma username_taken (users : list User.t) (username : string) :
  existsb (λ u, String.eqb (User.username u) username) users = true ↔
  ∃ u, u ∈ users ∧ User.username u = username.
Proof.
  rewrite existsb_exists. split; intros (u & Hin & Hu); exists u.
  - split; [by apply list_elem_of_In | by apply String.eqb_eq].
  - split; [by apply list_elem_of_In | by apply String.eqb_eq].
Qed.

Lemma username_free (users : list User.t) (username : string) :
  existsb (λ u, String.eqb (User.username u) username) users = false ↔
  ∀ u, u ∈ users → User.username u ≠ username.
Proof.
  rewrite <- not_true_iff_false, username_taken. split.
  - intros Hno u Hin Hu. apply Hno. eauto.
  - intros Hall (u & Hin & Hu). by apply (Hall u).
Qed.

(** [create] with the unique index of [save] spelled out. *)
Lemma create_eq (users : list User.t) (username password oid : string) :
  create users username password oid
  = if existsb (λ u, String.eqb (User.username u) username) users
    then (users, Rejected DuplicateKey)
    else (users ++ [User.mk oid username password],
          Resolved (User.mk oid username password)).
Proof. reflexivity. Qed.

Lemma findByUsername_None (users : list User.t) (username : string) :
  findByUsername users username = None ↔
  ∀ u, u ∈ users → User.username u ≠ username.
Proof.
  unfold findByUsername. rewrite find_None.
  split; intros Hall u Hin; specialize (Hall u Hin).
  - by apply String.eqb_neq.
  - by apply String.eqb_neq.
Qed.

Lemma findByUsername_Some (users : list User.t) (username : string)
    (user : User.t) :
  findByUsername users username = Some user →
  user ∈ users ∧ User.username user = username.
Proof.
  intros Hf. apply find_Some in Hf as [Hin Hu].
  split; [done | by apply String.eqb_eq].
Qed.

(** C5: [validateUser] fails closed.  When no stored user has the
    username it resolves with [null]; when one has, the record the lookup
    answers decides: a secret that [bcrypt.compare] refuses against its
    hash resolves with [null], one it accepts resolves with that record
    without its [password] field, the other fields as stored.  It never
    rejects. *)
Theorem validateUser_fails_closed (users : list User.t) (username : string) :
  ((∀ u, u ∈ users → User.username u ≠ username) →
   ∀ password, validateUser users username password = Resolved None) ∧
  ((∃ u, u ∈ users ∧ User.username u = username) →
   ∃ user, findByUsername users username = Some user ∧
     user ∈ users ∧ User.username user = username ∧
     (∀ password, bcrypt_compare password (User.password user) = false →
        validateUser users username password = Resolved None) ∧
     (∀ password, bcrypt_compare password (User.password user) = true →
        ∃ result, validateUser users username password = Resolved (Some result) ∧
          result !! "password" = None ∧
          (∀ k, k ≠ "password" → result !! k = User.toObject user !! k))) ∧
  (∀ password e, validateUser users username password ≠ Rejected e).
Proof.
  split; [| split].
  - intros Hnone password. unfold validateUser.
    by rewrite (proj2 (findByUsername_None users username) Hnone).
  - intros Hsome.
    destruct (findByUsername users username) as [user|] eqn:Hfind.
    + destruct (findByUsername_Some _ _ _ Hfind) as [Hin Hu].
      exists user. repeat split; try done.
      * intros password Hcmp. unfold validateUser. by rewrite Hfind, Hcmp.
      * intros password Hcmp. unfold validateUser. rewrite Hfind, Hcmp.
        eexists. split; [done |]. split.
        -- apply lookup_delete_eq.
        -- intros k Hk. by apply lookup_delete_ne.
    + destruct Hsome as (u & Hin & Hu).
      rewrite findByUsername_None in Hfind. by destruct (Hfind u Hin).
  - intros password e. unfold validateUser.
    destruct (findByUsername users username) as [user|]; [| done].
    by destruct (bcrypt_compare password (User.password user)).
Qed.

(** C7, as amended: [register] is rejected with the duplicate-key error of
    the unique index, passed on as the database gives it, and stores
    nothing, whenever the username is already stored; otherwise it
    appends the document [{ _id, username, password: hash }]
    where [hash] is [bcrypt.hash(rawSecret, 10)], and resolves with it.
    The raw secret reaches the store through the hash only: two secrets
    with the same hash give the same store, and where the hash is not the
    secret itself the new document does not hold the secret as its
    password. *)
Theorem register_persists_hash (users : list User.t)
    (username password salt oid : string) :
  ((∃ u, u ∈ users ∧ User.username u = username) →
   register users username password salt oid = (users, Rejected DuplicateKey)) ∧
  ((∀ u, u ∈ users → User.username u ≠ username) →
   register users username password salt oid
   = (users ++ [User.mk oid username (bcrypt_hash password 10 salt)],
      Resolved (User.mk oid username (bcrypt_hash password 10 salt)))) ∧
  (∀ password' salt',
     bcrypt_hash password' 10 salt' = bcrypt_hash password 10 salt →
     register users username password' salt' oid
     = register users username password salt oid) ∧
  (bcrypt_hash password 10 salt ≠ password →
   ∀ u, u ∈ (register users username password salt oid).1 →
        u ∈ users ∨ User.password u ≠ password).
Proof.
  unfold register. rewrite !create_eq.
  split; [| split; [| split]].
  - intros Htaken. by rewrite (proj2 (username_taken users username) Htaken).
  - intros Hfree. by rewrite (proj2 (username_free users username) Hfree).
  - intros password' salt' Hhash. by rewrite Hhash.
  - intros Hne u.
    destruct (existsb _ users); simpl; [by left |].
    intros Hu. apply elem_of_app in Hu as [Hu | Hu]; [by left |].
    apply list_elem_of_singleton in Hu. subst u. by right.
Qed.

End Credentials.

Section CredentialsExamples.
Import UsersService AuthService Examples.

Lemma validateUser_fails_closed_witness :
  (∀ u, u ∈ [ram] → User.username u ≠ "sita") ∧
  (∃ u, u ∈ [ram] ∧ User.username u = "ram") ∧
  bcrypt_compare "0000" (User.password ram) = false ∧
  bcrypt_compare "1234" (User.password ram) = true ∧
  validateUser [ram] "sita" "1234" = Resolved None ∧
  validateUser [ram] "ram" "0000" = Resolved None ∧
  (∃ result, validateUser [ram] "ram" "1234" = Resolved (Some result) ∧
     result !! "password" = None ∧
     result !! "username" = Some (Str "ram")).
Proof.
  assert (∀ u, u ∈ [ram] → User.username u ≠ "sita") as Hnone.
  { intros u Hu. apply list_elem_of_singleton in Hu. by subst u. }
  assert (∃ u, u ∈ [ram] ∧ User.username u = "ram") as Hsome.
  { exists ram. split; [apply list_elem_of_here | reflexivity]. }
  split; [exact Hnone |]. split; [exact Hsome |].
  split; [reflexivity |]. split; [reflexivity |].
  split.
  { exact (proj1 (validateUser_fails_closed [ram] "sita") Hnone "1234"). }
  destruct (proj1 (proj2 (validateUser_fails_closed [ram] "ram")) Hsome)
    as (user & Hfind & _ & _ & Hwrong & Hright).
  injection Hfind as <-.
  split.
  { apply Hwrong. reflexivity. }
  destruct (Hright "1234" eq_refl) as (result & Hres & Hpw & Hrest).
  exists result. split; [exact Hres |]. split; [exact Hpw |].
  rewrite Hrest; [reflexivity | discriminate].
Defined.

Lemma register_persists_hash_witness :
  (∃ u, u ∈ [ram] ∧ User.username u = "ram") ∧
  (∀ u, u ∈ [ram] → User.username u ≠ "sita") ∧
  bcrypt_hash "5678" 10 "xyz" = bcrypt_hash "5678" 10 "abc" ∧
  bcrypt_hash "5678" 10 "abc" ≠ "5678" ∧
  register [ram] "ram" "5678" "abc" "u2" = ([ram], Rejected DuplicateKey) ∧
  register [ram] "sita" "5678" "abc" "u2"
  = ([ram; User.mk "u2" "sita" "$2a$5678"],
     Resolved (User.mk "u2" "sita" "$2a$5678")) ∧
  register [ram] "sita" "5678" "xyz" "u2" = register [ram] "sita" "5678" "abc" "u2" ∧
  (∀ u, u ∈ (register [ram] "sita" "5678" "abc" "u2").1 →
        u ∈ [ram] ∨ User.password u ≠ "5678").
Proof.
  assert (∃ u, u ∈ [ram] ∧ User.username u = "ram") as Htaken.
  { exists ram. split; [apply list_elem_of_here | reflexivity]. }
  assert (∀ u, u ∈ [ram] → User.username u ≠ "sita") as Hfree.
  { intros u Hu. apply list_elem_of_singleton in Hu. by subst u. }
  assert (bcrypt_hash "5678" 10 "abc" ≠ "5678") as Hne by discriminate.
  split; [exact Htaken |]. split; [exact Hfree |].
  split; [reflexivity |]. split; [exact Hne |].
  split.
  { exact (proj1 (register_persists_hash [ram] "ram" "5678" "abc" "u2") Htaken). }
  destruct (proj2 (register_persists_hash [ram] "sita" "5678" "abc" "u2"))
    as (Hstore & Hsame & Hraw).
  split; [exact (Hstore Hfree) |].
  split; [exact (Hsame "5678" "xyz" eq_refl) |].
  exact (Hraw Hne).
Defined.

End CredentialsExamples.

Section RegisterResponse.
Context `{Bcrypt}.

(** C6, on the code: the body [POST /auth/register] answers for
    [{ username: "ram", password: "1234" }] on an empty collection is the
    saved document with its [password] field, holding the hash; the record
    [validateUser] answers for the same user has no such field. *)
Theorem register_response_holds_hash (salt oid : string) :
  let '(users, response) := AuthController.register [] "ram" "1234" salt oid in
  users = [User.mk oid "ram" (bcrypt_hash "1234" 10 salt)] ∧
  (∃ body, response = Resolved body ∧
     body !! "password" = Some (Str (bcrypt_hash "1234" 10 salt))) ∧
  (∀ password result,
     AuthService.validateUser users "ram" password = Resolved (Some result) →
     result !! "password" = None).
Proof.
  simpl. split; [done |]. split.
  - eexists. split; [done |]. unfold User.toObject. simpl.
    by simplify_map_eq.
  - intros password result. unfold AuthService.validateUser. simpl.
    destruct (bcrypt_compare password _); [| done].
    intros [= <-]. apply lookup_delete_eq.
Qed.

End RegisterResponse.

(* ===================================================================== *)
(** * Tokens *)
(* ===================================================================== *)

Section Tokens.
Context `{Jwt.Mac}.

(** The module signs with the key the strategy verifies with. *)
Lemma secret_is_secretOrKey : AuthModule.secret = JwtStrategy.secretOrKey.
Proof. reflexivity. Qed.

Lemma verify_sign (secret : string) (expiresIn issued now : Z)
    (username sub : value) :
  now < issued + expiresIn →
  Jwt.verify secret now (Jwt.sign secret expiresIn issued username sub)
  = inr (Jwt.mkPayload username sub issued (issued + expiresIn)).
Proof.
  intros Hnow. unfold Jwt.verify, Jwt.sign. simpl.
  rewrite decide_True by done.
  by rewrite (proj2 (Z.ltb_lt _ _) Hnow).
Qed.

Lemma verify_expired (secret : string) (expiresIn issued now : Z)
    (username sub : value) :
  issued + expiresIn ≤ now →
  Jwt.verify secret now (Jwt.sign secret expiresIn issued username sub)
  = inl Jwt.TokenExpired.
Proof.
  intros Hnow. unfold Jwt.verify, Jwt.sign. simpl.
  rewrite decide_True by done.
  by rewrite (proj2 (Z.ltb_ge _ _) Hnow).
Qed.

(** C9: the token [login] issues for a user with username [name] and
    identifier [uid] verifies, at any time before one hour has passed
    since it was issued, to a payload with these two claims, and the guard
    hands [{ userId: uid, username: name }] to the handler; from one hour
    on, verification fails with an expiry error and the guard rejects; and
    a token whose signature is not the one the key gives for its payload
    fails verification and is rejected, at any time. *)
Theorem login_then_verify (user : obj) (name uid : string) (issued : Z) :
  user !! "username" = Some (Str name) →
  user !! "_id" = Some (Str uid) →
  let token := AuthService.login issued user in
  (∀ now, now < issued + 3600 →
     (∃ p, Jwt.verify JwtStrategy.secretOrKey now token = inr p ∧
           Jwt.username p = Str name ∧ Jwt.sub p = Str uid) ∧
     JwtStrategy.authenticate now (Some token)
     = Resolved (JwtStrategy.mkUser (Str uid) (Str name))) ∧
  (∀ now, issued + 3600 ≤ now →
     Jwt.verify JwtStrategy.secretOrKey now token = inl Jwt.TokenExpired ∧
     JwtStrategy.authenticate now (Some token) = Rejected Unauthorized) ∧
  (∀ now (t : Jwt.token),
     Jwt.signature t ≠ Jwt.mac JwtStrategy.secretOrKey (Jwt.body t) →
     Jwt.verify JwtStrategy.secretOrKey now t = inl Jwt.InvalidSignature ∧
     JwtStrategy.authenticate now (Some t) = Rejected Unauthorized).
Proof.
  intros Hname Huid token.
  assert (token = Jwt.sign JwtStrategy.secretOrKey 3600 issued (Str name) (Str uid))
    as ->.
  { unfold token, AuthService.login, get. by rewrite Hname, Huid. }
  split; [| split].
  - intros now Hnow. unfold JwtStrategy.authenticate.
    rewrite verify_sign by done. split; [| done].
    eexists. by split.
  - intros now Hnow. unfold JwtStrategy.authenticate.
    by rewrite verify_expired.
  - intros now t Hsig. unfold JwtStrategy.authenticate, Jwt.verify.
    by rewrite decide_False.
Qed.

End Tokens.

Section TokensExamples.
Import Examples.

Lemma login_then_verify_witness :
  let user : obj := delete "password" (User.toObject ram) in
  let token := AuthService.login 1000 user in
  let forged := Jwt.mkToken
                  (Jwt.mkPayload (Str "ram") (Str "u2") 1000 4600)
                  (Jwt.signature token) in
  user !! "username" = Some (Str "ram") ∧
  user !! "_id" = Some (Str "u1") ∧
  2000 < 1000 + 3600 ∧
  1000 + 3600 ≤ 4600 ∧
  Jwt.signature forged ≠ Jwt.mac JwtStrategy.secretOrKey (Jwt.body forged) ∧
  JwtStrategy.authenticate 2000 (Some token)
  = Resolved (JwtStrategy.mkUser (Str "u1") (Str "ram")) ∧
  JwtStrategy.authenticate 4600 (Some token) = Rejected Unauthorized ∧
  JwtStrategy.authenticate 2000 (Some forged) = Rejected Unauthorized.
Proof.
  intros user token forged.
  assert (user !! "username" = Some (Str "ram")) as Hname by reflexivity.
  assert (user !! "_id" = Some (Str "u1")) as Huid by reflexivity.
  assert (2000 < 1000 + 3600) as Hbefore by lia.
  assert (1000 + 3600 ≤ 4600) as Hafter by lia.
  assert (Jwt.signature forged ≠ Jwt.mac JwtStrategy.secretOrKey (Jwt.body forged))
    as Hforged by discriminate.
  destruct (login_then_verify user "ram" "u1" 1000 Hname Huid)
    as (Hok & Hexpired & Htampered).
  split; [exact Hname |]. split; [exact Huid |].
  split; [exact Hbefore |]. split; [exact Hafter |].
  split; [exact Hforged |].
  split; [exact (proj2 (Hok 2000 Hbefore)) |].
  split; [exact (proj2 (Hexpired 4600 Hafter)) |].
  exact (proj2 (Htampered 2000 forged Hforged)).
Defined.

End TokensExamples.

(* ===================================================================== *)
(** * The items service: how its methods compose *)
(* ===================================================================== *)

Section ArraysMore.
Context {A : Type} (p : A → bool).

(** Replacing an element that [p] refuses by another it refuses does not
    change what [find] answers. *)
Lemma find_insert_false (l : list A) (i : nat) (x y : A) :
  l !! i = Some x → p x = false → p y = false →
  find p (<[i := y]> l) = find p l.
Proof.
  revert i. induction l as [|a l IH]; intros [|i] Hi Hx Hy; simpl in *;
    try done.
  - injection Hi as ->. by rewrite Hx, Hy.
  - destruct (p a); [done |]. by apply IH.
Qed.

(** [filter q] keeps everything [find p] could answer when [q] holds
    wherever [p] does. *)
Lemma find_filter_implied (q : A → bool) (l : list A) :
  (∀ x, p x = true → q x = true) →
  find p (List.filter q l) = find p l.
Proof.
  intros Hpq. induction l as [|a l IH]; simpl; [done |].
  destruct (p a) eqn:Hp.
  - rewrite (Hpq a Hp). simpl. by rewrite Hp.
  - destruct (q a); simpl; [by rewrite Hp |]; done.
Qed.

Lemma findIndex_insert_true (l : list A) (i : nat) (y : A) :
  findIndex p l = Some i → p y = true →
  findIndex p (<[i := y]> l) = Some i.
Proof.
  intros Hi Hy. apply findIndex_Some in Hi as (x & Hx & _ & Hfirst).
  pose proof (lookup_lt_Some _ _ _ Hx) as Hlt.
  apply findIndex_Some. exists y.
  split; [by apply list_lookup_insert_eq |]. split; [done |].
  intros j z Hj Hz. rewrite list_lookup_insert_ne in Hz by lia.
  by apply (Hfirst j).
Qed.

Lemma filter_all (l : list A) :
  (∀ x, x ∈ l → p x = true) → List.filter p l = l.
Proof.
  induction l as [|a l IH]; intros Hall; simpl; [done |].
  rewrite (Hall a (list_elem_of_here _ _)). f_equal.
  apply IH. intros x Hx. apply Hall. by apply list_elem_of_further.
Qed.

Lemma filter_filter (l : list A) :
  List.filter p (List.filter p l) = List.filter p l.
Proof.
  apply filter_all. intros x Hx.
  by apply list_elem_of_In, filter_In in Hx as [_ Hx].
Qed.

End ArraysMore.

Section ItemsComposition.
Import ItemsService ItemsRuns Examples.

Lemma has_id_NaN (e : CreateItemDto) : has_id NaN e = false.
Proof. unfold has_id. by destruct (get e "id") as [| | |[]|]. Qed.

(** An entity has one identifier at most. *)
Lemma has_id_exclusive (id id' : number) (e : CreateItemDto) :
  has_id id e = true → has_id id' e = true → number_eq id' id = true.
Proof.
  unfold has_id. destruct (get e "id") as [| | |[z|]|]; simpl; try done.
  destruct id as [a|], id' as [b|]; simpl; try done.
  rewrite !Z.eqb_eq. lia.
Qed.

(** The identifier of a merged entity is the one of the body when the body
    has one, the old one otherwise. *)
Lemma has_id_spread (id : number) (old partial : CreateItemDto) :
  has_id id (spread old partial)
  = match partial !! "id" with
    | Some v => strict_eq v (Num id)
    | None => has_id id old
    end.
Proof.
  unfold has_id, get, spread.
  destruct (partial !! "id") as [v|] eqn:Hv.
  - by rewrite (lookup_union_Some_l _ _ _ _ Hv).
  - by rewrite (lookup_union_r _ _ _ Hv).
Qed.

Lemma remove_absent (items : list CreateItemDto) (id : number) :
  (∀ e, e ∈ items → has_id id e = false) →
  remove items id = (items, false).
Proof.
  intros Hnone. unfold remove.
  rewrite filter_all.
  - by rewrite Nat.ltb_irrefl.
  - intros e He. by rewrite (Hnone e He).
Qed.

(** A run of [cs1 ++ cs2] is a run of [cs1] followed by a run of [cs2]. *)
Lemma run_app (items : list CreateItemDto) (cs1 cs2 : list call) :
  run items (cs1 ++ cs2)
  = let '(items1, answers1) := run items cs1 in
    let '(items2, answers2) := run items1 cs2 in
    (items2, answers1 ++ answers2).
Proof.
  revert items. induction cs1 as [|c cs1 IH]; intros items; simpl.
  - by destruct (run items cs2).
  - destruct (step items c) as [items' a]. rewrite IH.
    destruct (run items' cs1) as [items1 answers1].
    by destruct (run items1 cs2).
Qed.

Lemma findOne_numbered (items : list CreateItemDto) (i : nat)
    (e : CreateItemDto) :
  numbered items → items !! i = Some e →
  findOne items (Int (Z.of_nat i + 1)) = Some e.
Proof.
  intros Hnum Hi. unfold findOne. rewrite find_findIndex.
  assert (findIndex (has_id (Int (Z.of_nat i + 1))) items = Some i) as ->;
    [| done].
  apply findIndex_Some. exists e. split; [done |]. split.
  - unfold has_id. rewrite (Hnum i e Hi). simpl. apply Z.eqb_refl.
  - intros j y Hj Hy. unfold has_id. rewrite (Hnum j y Hy). simpl.
    apply Z.eqb_neq. lia.
Qed.

Lemma run_creates_spec (xs : list CreateItemDto) :
  let '(items, answers) := run initial (Create <$> xs) in
  numbered items ∧ length items = length xs ∧ length answers = length xs ∧
  ∀ (i : nat) (x : CreateItemDto), xs !! i = Some x →
    items !! i = Some (<["id" := Num (Int (Z.of_nat i + 1))]> x) ∧
    answers !! i = Some (Created (<["id" := Num (Int (Z.of_nat i + 1))]> x)).
Proof.
  induction xs as [|x xs IH] using rev_ind.
  - simpl. split; [apply numbered_initial |]. split; [done |].
    split; [done |]. intros i x Hi. by rewrite lookup_nil in Hi.
  - rewrite fmap_app, run_app. simpl.
    destruct (run initial (Create <$> xs)) as [items answers].
    destruct IH as (Hnum & Hlen & Hlena & Hlook).
    split; [exact (numbered_create items x Hnum) |].
    split; [rewrite !length_app; simpl; lia |].
    split; [rewrite !length_app; simpl; lia |].
    intros i y Hi. apply lookup_app_Some in Hi as [Hi | [Hge Hi]].
    + destruct (Hlook i y Hi) as [Hitem Hanswer].
      split; by apply lookup_app_l_Some.
    + apply list_lookup_singleton_Some in Hi as [Hi <-].
      assert (i = length xs) as -> by lia.
      split.
      * rewrite lookup_app_r by lia. by rewrite Hlen, Nat.sub_diag.
      * rewrite lookup_app_r by lia. rewrite Hlena, Nat.sub_diag. simpl.
        by rewrite Hlen.
Qed.

(** X1: on a service that has only served [create] calls, the call number
    [i + 1] answered its record with identifier [i + 1], the record is
    stored at index [i], and [findOne(i + 1)] returns it. *)
Theorem run_creates_numbered (xs : list CreateItemDto) :
  let '(items, answers) := run initial (Create <$> xs) in
  length items = length xs ∧
  ∀ (i : nat) (x : CreateItemDto), xs !! i = Some x →
    items !! i = Some (<["id" := Num (Int (Z.of_nat i + 1))]> x) ∧
    answers !! i = Some (Created (<["id" := Num (Int (Z.of_nat i + 1))]> x)) ∧
    findOne items (Int (Z.of_nat i + 1))
    = Some (<["id" := Num (Int (Z.of_nat i + 1))]> x).
Proof.
  pose proof (run_creates_spec xs) as Hspec.
  destruct (run initial (Create <$> xs)) as [items answers].
  destruct Hspec as (Hnum & Hlen & _ & Hlook).
  split; [done |]. intros i x Hi.
  destruct (Hlook i x Hi) as [Hitem Hanswer].
  split; [done |]. split; [done |].
  by apply findOne_numbered.
Qed.

Lemma run_creates_numbered_witness :
  [pen; ink; cap] !! 2%nat = Some cap ∧
  let '(items, answers) := run initial (Create <$> [pen; ink; cap]) in
  items !! 2%nat = Some (<["id" := Num (Int 3)]> cap) ∧
  findOne items (Int 3) = Some (<["id" := Num (Int 3)]> cap).
Proof.
  split; [reflexivity |].
  pose proof (run_creates_numbered [pen; ink; cap]) as Hrun.
  destruct (run initial (Create <$> [pen; ink; cap])) as [items answers].
  destruct Hrun as [_ Hlook].
  destruct (Hlook 2%nat cap eq_refl) as (Hitem & _ & Hfind).
  split; [exact Hitem | exact Hfind].
Defined.

(** X2: after [create], [findOne] answers what it answered before for every
    identifier that was in use; the new entity is found only under the
    identifier [length + 1], and only when that was not in use. *)
Theorem findOne_after_create (items : list CreateItemDto)
    (item : CreateItemDto) (id : number) :
  findOne (create items item).1 id
  = match findOne items id with
    | Some e => Some e
    | None =>
        if number_eq (Int (Z.of_nat (length items) + 1)) id
        then Some (create items item).2
        else None
    end.
Proof.
  unfold findOne. simpl. rewrite find_app.
  destruct (find (has_id id) items); [done |].
  simpl. by rewrite has_id_insert.
Qed.

(** X3: [remove(id)] does not change what [findOne] answers for another
    identifier. *)
Theorem findOne_after_remove (items : list CreateItemDto) (id id' : number) :
  number_eq id' id = false →
  findOne (remove items id).1 id' = findOne items id'.
Proof.
  intros Hne. unfold findOne. simpl.
  apply find_filter_implied. intros e He.
  destruct (has_id id e) eqn:Hid; [| done].
  pose proof (has_id_exclusive id id' e Hid He). congruence.
Qed.

Lemma findOne_after_remove_witness :
  number_eq (Int 2) (Int 1) = false ∧
  findOne (remove [pen1; ink2] (Int 1)).1 (Int 2) = findOne [pen1; ink2] (Int 2).
Proof.
  split; [reflexivity |].
  exact (findOne_after_remove [pen1; ink2] (Int 1) (Int 2) eq_refl).
Defined.

(** X4: when the body of [update(id, body)] has no [id] of its own, or one
    that equals [id], [findOne(id)] afterwards returns what [update]
    returned: the merged entity, or nothing when no entity had the
    identifier. *)
Theorem findOne_after_update (items : list CreateItemDto) (id : number)
    (partial : CreateItemDto) :
  (∀ v, partial !! "id" = Some v → strict_eq v (Num id) = true) →
  let '(items', r) := update items id partial in
  findOne items' id = r.
Proof.
  intros Hkeep. unfold update, findOne.
  destruct (findIndex (has_id id) items) as [i|] eqn:Hi.
  - pose proof Hi as Hi'.
    apply findIndex_Some in Hi' as (old & Hold & Hid & _).
    rewrite Hold. simpl. rewrite find_findIndex.
    rewrite (findIndex_insert_true (has_id id) items i _ Hi); [done |].
    rewrite has_id_spread. destruct (partial !! "id") as [v|] eqn:Hv; [| done].
    by apply Hkeep.
  - by apply find_None, findIndex_None.
Qed.

Lemma findOne_after_update_witness :
  (∀ v, cap !! "id" = Some v → strict_eq v (Num (Int 2)) = true) ∧
  let '(items', r) := update [pen1; ink2] (Int 2) cap in
  findOne items' (Int 2) = r.
Proof.
  assert (∀ v, cap !! "id" = Some v → strict_eq v (Num (Int 2)) = true)
    as Hkeep by (intros v Hv; discriminate Hv).
  split; [exact Hkeep |].
  exact (findOne_after_update [pen1; ink2] (Int 2) cap Hkeep).
Defined.

(** X5: an [update(id, body)] whose body has no [id] leaves the identifier
    of every stored entity as it was, and does not change what [findOne]
    answers for any other identifier. *)
Theorem update_frame (items : list CreateItemDto) (id : number)
    (partial : CreateItemDto) :
  partial !! "id" = None →
  (λ e, get e "id") <$> (update items id partial).1
  = (λ e, get e "id") <$> items ∧
  ∀ id', number_eq id' id = false →
    findOne (update items id partial).1 id' = findOne items id'.
Proof.
  intros Hnoid. unfold update.
  destruct (findIndex (has_id id) items) as [i|] eqn:Hi; [| done].
  apply findIndex_Some in Hi as (old & Hold & Hid & _).
  rewrite Hold. simpl. split.
  - rewrite list_fmap_insert. apply list_insert_id.
    rewrite list_lookup_fmap, Hold. simpl. f_equal.
    unfold get, spread. by rewrite (lookup_union_r _ _ _ Hnoid).
  - intros id' Hne. unfold findOne.
    assert (has_id id' old = false) as Hold'.
    { destruct (has_id id' old) eqn:Hid'; [| done].
      pose proof (has_id_exclusive id id' old Hid Hid'). congruence. }
    apply (find_insert_false _ _ _ old); [done.. |].
    by rewrite has_id_spread, Hnoid.
Qed.

Lemma update_frame_witness :
  cap !! "id" = None ∧
  number_eq (Int 1) (Int 2) = false ∧
  (λ e, get e "id") <$> (update [pen1; ink2] (Int 2) cap).1
  = [Num (Int 1); Num (Int 2)] ∧
  findOne (update [pen1; ink2] (Int 2) cap).1 (Int 1) = Some pen1.
Proof.
  split; [reflexivity |]. split; [reflexivity |].
  destruct (update_frame [pen1; ink2] (Int 2) cap eq_refl) as [Hids Hfind].
  split; [exact Hids |].
  exact (Hfind (Int 1) eq_refl).
Defined.

(** X6: [update] is idempotent when the body has no [id] of its own, or one
    that equals [id]: the same call a second time returns the same entity
    and leaves the collection as the first call left it. *)
Theorem update_twice (items : list CreateItemDto) (id : number)
    (partial : CreateItemDto) :
  (∀ v, partial !! "id" = Some v → strict_eq v (Num id) = true) →
  update (update items id partial).1 id partial = update items id partial.
Proof.
  intros Hkeep. unfold update at 2 3.
  destruct (findIndex (has_id id) items) as [i|] eqn:Hi.
  - pose proof Hi as Hi'.
    apply findIndex_Some in Hi' as (old & Hold & Hid & _).
    pose proof (lookup_lt_Some _ _ _ Hold) as Hlt.
    rewrite Hold. simpl. unfold update.
    rewrite (findIndex_insert_true (has_id id) items i _ Hi).
    + assert (<[i := spread old partial]> items !! i = Some (spread old partial))
        as Hmerged by (by apply list_lookup_insert_eq).
      assert (spread (spread old partial) partial = spread old partial)
        as Hagain.
      { unfold spread. by rewrite (assoc_L (∪)), (idemp_L (∪) partial). }
      rewrite Hmerged. simpl. rewrite Hagain.
      rewrite list_insert_insert_eq. by rewrite Hmerged.
    + rewrite has_id_spread.
      destruct (partial !! "id") as [v|] eqn:Hv; [by apply Hkeep | done].
  - simpl. unfold update. by rewrite Hi.
Qed.

Lemma update_twice_witness :
  (∀ v, cap !! "id" = Some v → strict_eq v (Num (Int 2)) = true) ∧
  update (update [pen1; ink2] (Int 2) cap).1 (Int 2) cap
  = update [pen1; ink2] (Int 2) cap.
Proof.
  assert (∀ v, cap !! "id" = Some v → strict_eq v (Num (Int 2)) = true)
    as Hkeep by (intros v Hv; discriminate Hv).
  split; [exact Hkeep |].
  exact (update_twice [pen1; ink2] (Int 2) cap Hkeep).
Defined.

(** X7: a second [remove(id)] finds nothing to remove: it answers [false]
    and leaves the collection as the first call left it. *)
Theorem remove_twice (items : list CreateItemDto) (id : number) :
  remove (remove items id).1 id = ((remove items id).1, false).
Proof.
  apply remove_absent. intros e He. simpl in He.
  apply list_elem_of_In, filter_In in He as [_ He].
  by apply negb_true_iff.
Qed.

(** X8: with the identifier [NaN] (a route parameter that is not a number)
    no method touches the collection: [findOne] finds nothing, [update]
    returns [null] and [remove] returns [false], whatever is stored. *)
Theorem NaN_matches_nothing (items : list CreateItemDto)
    (partial : CreateItemDto) :
  findOne items NaN = None ∧
  update items NaN partial = (items, None) ∧
  remove items NaN = (items, false).
Proof.
  assert (∀ e, e ∈ items → has_id NaN e = false) as Hnone
    by (intros e _; apply has_id_NaN).
  split; [by apply find_None |]. split.
  - unfold update. by rewrite (proj2 (findIndex_None _ _) Hnone).
  - by apply remove_absent.
Qed.

(** X9: [create] followed by [remove] of the identifier it assigned gives
    the collection back, when that identifier was not already in use. *)
Theorem create_then_remove (items : list CreateItemDto) (item : CreateItemDto) :
  (∀ e, e ∈ items → has_id (Int (Z.of_nat (length items) + 1)) e = false) →
  remove (create items item).1 (Int (Z.of_nat (length items) + 1))
  = (items, true).
Proof.
  intros Hfresh. unfold remove, create. simpl.
  rewrite List.filter_app. simpl.
  rewrite has_id_insert. simpl. rewrite Z.eqb_refl. simpl.
  rewrite filter_all.
  - rewrite app_nil_r, length_app. simpl.
    f_equal. apply Nat.ltb_lt. lia.
  - intros e He. by rewrite (Hfresh e He).
Qed.

Lemma create_then_remove_witness :
  (∀ e, e ∈ [pen1] → has_id (Int (Z.of_nat (length [pen1]) + 1)) e = false) ∧
  remove (create [pen1] ink).1 (Int 2) = ([pen1], true).
Proof.
  assert (∀ e, e ∈ [pen1] → has_id (Int (Z.of_nat (length [pen1]) + 1)) e = false)
    as Hfresh.
  { intros e He. apply list_elem_of_singleton in He. subst e. reflexivity. }
  split; [exact Hfresh |].
  exact (create_then_remove [pen1] ink Hfresh).
Defined.

Lemma step_length (items : list CreateItemDto) (c : call) :
  (length (step items c).1 ≤ length items + (if is_create c then 1 else 0))%nat.
Proof.
  destruct c as [item | | id | id partial | id]; simpl; try lia.
  - rewrite length_app. simpl. lia.
  - unfold update. destruct (findIndex (has_id id) items); simpl; [| lia].
    rewrite length_insert. lia.
  - pose proof (List.filter_length_le (λ item, negb (has_id id item)) items).
    lia.
Qed.

Lemma run_bounded (items : list CreateItemDto) (cs : list call) :
  let '(items', answers) := run items cs in
  (length items' ≤ length items + creates cs)%nat ∧
  ∀ e, Created e ∈ answers →
    ∃ k, get e "id" = Num (Int k) ∧
         1 ≤ k ≤ Z.of_nat (length items + creates cs).
Proof.
  revert items. induction cs as [|c cs IH]; intros items.
  - simpl. split; [lia |]. intros e He. inversion He.
  - simpl. pose proof (step_length items c) as Hstep.
    destruct (step items c) as [items1 a] eqn:Hc.
    specialize (IH items1).
    destruct (run items1 cs) as [items2 answers].
    destruct IH as [Hlen Hids]. simpl in Hstep.
    assert (creates (c :: cs) = (if is_create c then 1 else 0) + creates cs)%nat
      as Hcount.
    { unfold creates. simpl. by destruct (is_create c). }
    rewrite Hcount. split; [lia |].
    intros e He. apply elem_of_cons in He as [He | He].
    + destruct c as [item | | id | id partial | id]; simpl in Hc;
        try (destruct (update items id partial)); try discriminate He;
        try (injection Hc as _ <-; discriminate He).
      injection Hc as _ <-. injection He as ->.
      exists (Z.of_nat (length items) + 1). split.
      * unfold get. by rewrite lookup_insert_eq.
      * simpl. lia.
    + destruct (Hids e He) as (k & Hk & Hrange).
      exists k. split; [done | lia].
Qed.

(** X10: over any sequence of calls on a fresh service, the collection is
    never longer than the number of [create] calls, and every identifier
    [create] assigns is an integer between 1 and that number. *)
Theorem run_identifiers_bounded (cs : list call) :
  let '(items, answers) := run initial cs in
  (length items ≤ creates cs)%nat ∧
  ∀ e, Created e ∈ answers →
    ∃ k, get e "id" = Num (Int k) ∧ 1 ≤ k ≤ Z.of_nat (creates cs).
Proof. exact (run_bounded initial cs). Qed.

Lemma run_identifiers_bounded_witness :
  let cs := [Create pen; Create ink; Remove (Int 1); Create cap] in
  let '(items, answers) := run initial cs in
  Created (<["id" := Num (Int 2)]> cap) ∈ answers ∧
  ∃ k, get (<["id" := Num (Int 2)]> cap) "id" = Num (Int k) ∧
       1 ≤ k ≤ Z.of_nat (creates cs).
Proof.
  intros cs.
  pose proof (run_identifiers_bounded cs) as Hrun.
  assert (Created (<["id" := Num (Int 2)]> cap) ∈ (run initial cs).2) as Hin.
  { simpl. do 3 apply list_elem_of_further. apply list_elem_of_here. }
  destruct (run initial cs) as [items answers].
  destruct Hrun as [_ Hids].
  split; [exact Hin |]. exact (Hids _ Hin).
Defined.

End ItemsComposition.

(* ===================================================================== *)
(** * The auth service: how its methods compose *)
(* ===================================================================== *)

Section AuthComposition.
Context `{Bcrypt} `{Jwt.Mac}.
Import UsersService AuthService.

Lemma findByUsername_snoc (users : list User.t) (new : User.t)
    (username : string) :
  findByUsername (users ++ [new]) username
  = match findByUsername users username with
    | Some user => Some user
    | None => if String.eqb (User.username new) username then Some new else None
    end.
Proof. unfold findByUsername. by rewrite find_app. Qed.

(** What [validateUser] hands over: the stored document but for its
    [password]. *)
Lemma stripped_fields (user : User.t) :
  delete "password" (User.toObject user)
  = {[ "_id" := Str (User._id user);
       "username" := Str (User.username user);
       "__v" := Num (Int 0) ]}.
Proof.
  unfold User.toObject.
  rewrite delete_insert_ne by done. rewrite delete_insert_ne by done.
  rewrite delete_insert_eq. by rewrite delete_singleton_ne.
Qed.

(** X12: after a [register] that stored, [validateUser] with the same
    username and secret resolves with the new document but for its
    [password], that is [{ _id, username, __v: 0 }], provided
    [bcrypt.compare] accepts the secret against its own hash; with a
    secret it refuses against that hash it resolves with [null]. *)
Theorem register_then_validateUser (users : list User.t)
    (username password salt oid : string) :
  (∀ u, u ∈ users → User.username u ≠ username) →
  bcrypt_compare password (bcrypt_hash password 10 salt) = true →
  validateUser (register users username password salt oid).1 username password
  = Resolved (Some {[ "_id" := Str oid;
                      "username" := Str username;
                      "__v" := Num (Int 0) ]}) ∧
  ∀ other, bcrypt_compare other (bcrypt_hash password 10 salt) = false →
    validateUser (register users username password salt oid).1 username other
    = Resolved None.
Proof.
  intros Hfree Haccept.
  unfold register. rewrite !create_eq.
  rewrite (proj2 (username_free users username) Hfree). simpl.
  assert (findByUsername
            (users ++ [User.mk oid username (bcrypt_hash password 10 salt)])
            username
          = Some (User.mk oid username (bcrypt_hash password 10 salt))) as Hfind.
  { rewrite findByUsername_snoc.
    rewrite (proj2 (findByUsername_None users username) Hfree). simpl.
    by rewrite String.eqb_refl. }
  unfold validateUser. rewrite Hfind. simpl. split.
  - rewrite Haccept. by rewrite stripped_fields.
  - intros other Hrefuse. by rewrite Hrefuse.
Qed.

(** X13: [register] does not change what the service answers about any
    other username: [findByUsername] and [validateUser] answer for it as
    before. *)
Theorem register_frame (users : list User.t)
    (username password salt oid other : string) :
  other ≠ username →
  findByUsername (register users username password salt oid).1 other
  = findByUsername users other ∧
  ∀ secret,
    validateUser (register users username password salt oid).1 other secret
    = validateUser users other secret.
Proof.
  intros Hother.
  assert (findByUsername (register users username password salt oid).1 other
          = findByUsername users other) as Hfind.
  { unfold register. rewrite !create_eq.
    destruct (existsb _ users); simpl; [done |].
    rewrite findByUsername_snoc. simpl.
    destruct (findByUsername users other); [done |].
    destruct (String.eqb_spec username other); [congruence | done]. }
  split; [done |]. intros secret. unfold validateUser. by rewrite Hfind.
Qed.

(** X14: register, login, profile.  After [POST /auth/register] stored a new
    user, [POST /auth/login] with the same credentials answers a token
    (provided [bcrypt.compare] accepts the secret against its own hash),
    and [GET /auth/profile] with that token, within the hour, answers
    [{ userId: _id, username }]. *)
Theorem register_login_profile (users : list User.t)
    (username password salt oid : string) (issued now : Z) :
  (∀ u, u ∈ users → User.username u ≠ username) →
  bcrypt_compare password (bcrypt_hash password 10 salt) = true →
  now < issued + 3600 →
  ∃ token,
    AuthController.login
      (AuthController.register users username password salt oid).1
      issued username (Str password)
    = Resolved (AuthController.AccessToken token) ∧
    AuthController.getProfile now (Some token)
    = Resolved (JwtStrategy.mkUser (Str oid) (Str username)).
Proof.
  intros Hfree Haccept Hnow.
  unfold AuthController.register, AuthController.login.
  unfold validateUser_unchecked, register. rewrite !create_eq.
  rewrite (proj2 (username_free users username) Hfree). simpl.
  unfold validateUser. rewrite findByUsername_snoc.
  rewrite (proj2 (findByUsername_None users username) Hfree). simpl.
  rewrite String.eqb_refl. simpl. rewrite Haccept, stripped_fields.
  eexists. split; [done |].
  unfold AuthController.getProfile, JwtStrategy.authenticate, login.
  unfold AuthModule.secret, JwtStrategy.secretOrKey, AuthModule.expiresIn.
  by rewrite verify_sign.
Qed.

(** X15: what [POST /auth/login] answers, for a body whose [password] may
    be anything.  It rejects exactly when the username is stored and the
    password is not a string, with the error of [bcrypt.compare].  It
    answers a token only when the password is a string that
    [bcrypt.compare] accepts against the hash of the stored user with
    that username, and the token carries that user's [username] and
    [_id], is issued now and expires in an hour.  It answers the body
    [{ message: 'Invalid credentials' }] when no user has the username,
    whatever the password, and when the password is a string that
    [bcrypt.compare] refuses for every stored user of that name. *)
Theorem controller_login_sound (users : list User.t) (now : Z)
    (username : string) (password : value) :
  (∀ e, AuthController.login users now username password = Rejected e ↔
        e = IllegalArguments ∧ (∀ secret, password ≠ Str secret) ∧
        is_Some (findByUsername users username)) ∧
  (∀ token,
     AuthController.login users now username password
     = Resolved (AuthController.AccessToken token) →
     ∃ user secret, password = Str secret ∧
       user ∈ users ∧ User.username user = username ∧
       bcrypt_compare secret (User.password user) = true ∧
       Jwt.body token
       = Jwt.mkPayload (Str username) (Str (User._id user)) now (now + 3600)) ∧
  (findByUsername users username = None →
   AuthController.login users now username password
   = Resolved AuthController.InvalidCredentials) ∧
  (∀ secret, password = Str secret →
     (∀ user, user ∈ users → User.username user = username →
        bcrypt_compare secret (User.password user) = false) →
     AuthController.login users now username password
     = Resolved AuthController.InvalidCredentials).
Proof.
  unfold AuthController.login, validateUser_unchecked, validateUser.
  destruct (findByUsername users username) as [user|] eqn:Hfind.
  - destruct (findByUsername_Some _ _ _ Hfind) as [Hin Hname].
    destruct password as [| | b | n | s]; simpl.
    5: destruct (bcrypt_compare s (User.password user)) eqn:Hcmp.
    all: split; [| split; [| split]]; try done.
    all: try (intros e; split;
              [ intros [= <-]; split; [done |]; split; [done | by eexists]
              | by intros (-> & _ & _) ]).
    + intros e. split; [done |]. intros (_ & Hnot & _). by destruct (Hnot s).
    + intros token [= <-]. exists user, s.
      split; [done |]. split; [done |]. split; [done |]. split; [done |].
      rewrite stripped_fields. unfold login, Jwt.sign, get. simpl.
      rewrite lookup_insert_ne by done.
      rewrite lookup_insert_eq, lookup_insert_eq. simpl.
      by rewrite Hname.
    + intros secret [= <-] Hrefuse.
      rewrite (Hrefuse user Hin Hname) in Hcmp. done.
    + intros e. split; [done |]. intros (_ & Hnot & _). by destruct (Hnot s).
  - assert (∀ e, Resolved AuthController.InvalidCredentials = Rejected e ↔
                 e = IllegalArguments ∧ (∀ secret, password ≠ Str secret) ∧
                 is_Some (@None User.t)) as Hnever.
    { intros e. split; [done |]. intros (_ & _ & [user Huser]). done. }
    destruct password as [| | b | n | s]; simpl;
      (split; [exact Hnever | by repeat split]).
Qed.

End AuthComposition.

Section AuthCompositionExamples.
Import UsersService AuthService Examples.

Lemma register_then_validateUser_witness :
  (∀ u, u ∈ [ram] → User.username u ≠ "sita") ∧
  bcrypt_compare "5678" (bcrypt_hash "5678" 10 "abc") = true ∧
  bcrypt_compare "0000" (bcrypt_hash "5678" 10 "abc") = false ∧
  validateUser (register [ram] "sita" "5678" "abc" "u2").1 "sita" "5678"
  = Resolved (Some {[ "_id" := Str "u2";
                      "username" := Str "sita";
                      "__v" := Num (Int 0) ]}) ∧
  validateUser (register [ram] "sita" "5678" "abc" "u2").1 "sita" "0000"
  = Resolved None.
Proof.
  assert (∀ u, u ∈ [ram] → User.username u ≠ "sita") as Hfree.
  { intros u Hu. apply list_elem_of_singleton in Hu. by subst u. }
  assert (bcrypt_compare "5678" (bcrypt_hash "5678" 10 "abc") = true)
    as Haccept by reflexivity.
  assert (bcrypt_compare "0000" (bcrypt_hash "5678" 10 "abc") = false)
    as Hrefuse by reflexivity.
  destruct (register_then_validateUser [ram] "sita" "5678" "abc" "u2"
              Hfree Haccept) as [Hright Hwrong].
  split; [exact Hfree |]. split; [exact Haccept |]. split; [exact Hrefuse |].
  split; [exact Hright |]. exact (Hwrong "0000" Hrefuse).
Defined.

Lemma register_frame_witness :
  "ram" ≠ "sita" ∧
  findByUsername (register [ram] "sita" "5678" "abc" "u2").1 "ram"
  = findByUsername [ram] "ram" ∧
  validateUser (register [ram] "sita" "5678" "abc" "u2").1 "ram" "1234"
  = validateUser [ram] "ram" "1234".
Proof.
  assert ("ram" ≠ "sita") as Hother by discriminate.
  destruct (register_frame [ram] "sita" "5678" "abc" "u2" "ram" Hother)
    as [Hfind Hvalidate].
  split; [exact Hother |]. split; [exact Hfind |]. exact (Hvalidate "1234").
Defined.

Lemma register_login_profile_witness :
  (∀ u, u ∈ [ram] → User.username u ≠ "sita") ∧
  bcrypt_compare "5678" (bcrypt_hash "5678" 10 "abc") = true ∧
  2000 < 1000 + 3600 ∧
  ∃ token,
    AuthController.login
      (AuthController.register [ram] "sita" "5678" "abc" "u2").1
      1000 "sita" (Str "5678")
    = Resolved (AuthController.AccessToken token) ∧
    AuthController.getProfile 2000 (Some token)
    = Resolved (JwtStrategy.mkUser (Str "u2") (Str "sita")).
Proof.
  assert (∀ u, u ∈ [ram] → User.username u ≠ "sita") as Hfree.
  { intros u Hu. apply list_elem_of_singleton in Hu. by subst u. }
  assert (bcrypt_compare "5678" (bcrypt_hash "5678" 10 "abc") = true)
    as Haccept by reflexivity.
  assert (2000 < 1000 + 3600) as Hnow by lia.
  split; [exact Hfree |]. split; [exact Haccept |]. split; [exact Hnow |].
  exact (register_login_profile [ram] "sita" "5678" "abc" "u2" 1000 2000
           Hfree Haccept Hnow).
Defined.

Lemma controller_login_sound_witness :
  (∀ secret, Undefined ≠ Str secret) ∧
  is_Some (findByUsername [ram] "ram") ∧
  findByUsername [ram] "sita" = None ∧
  (∀ user, user ∈ [ram] → User.username user = "ram" →
     bcrypt_compare "0000" (User.password user) = false) ∧
  AuthController.login [ram] 1000 "ram" Undefined = Rejected IllegalArguments ∧
  AuthController.login [ram] 1000 "sita" Undefined
  = Resolved AuthController.InvalidCredentials ∧
  AuthController.login [ram] 1000 "ram" (Str "0000")
  = Resolved AuthController.InvalidCredentials ∧
  (∃ token,
     AuthController.login [ram] 1000 "ram" (Str "1234")
     = Resolved (AuthController.AccessToken token) ∧
     ∃ user secret, Str "1234" = Str secret ∧
       user ∈ [ram] ∧ User.username user = "ram" ∧
       bcrypt_compare secret (User.password user) = true ∧
       Jwt.body token
       = Jwt.mkPayload (Str "ram") (Str (User._id user)) 1000 (1000 + 3600)).
Proof.
  assert (∀ secret, Undefined ≠ Str secret) as Hnot by discriminate.
  assert (is_Some (findByUsername [ram] "ram")) as Hstored by (by eexists).
  assert (findByUsername [ram] "sita" = None) as Habsent by reflexivity.
  assert (∀ user, user ∈ [ram] → User.username user = "ram" →
            bcrypt_compare "0000" (User.password user) = false) as Hrefuse.
  { intros user Hu _. apply list_elem_of_singleton in Hu. by subst user. }
  split; [exact Hnot |]. split; [exact Hstored |]. split; [exact Habsent |].
  split; [exact Hrefuse |]. split.
  { apply (proj1 (controller_login_sound [ram] 1000 "ram" Undefined)).
    split; [reflexivity |]. split; [exact Hnot | exact Hstored]. }
  split.
  { exact (proj1 (proj2 (proj2 (controller_login_sound [ram] 1000 "sita" Undefined)))
             Habsent). }
  split.
  { exact (proj2 (proj2 (proj2 (controller_login_sound [ram] 1000 "ram" (Str "0000"))))
             "0000" eq_refl Hrefuse). }
  eexists. split; [reflexivity |].
  exact (proj1 (proj2 (controller_login_sound [ram] 1000 "ram" (Str "1234")))
           _ eq_refl).
Defined.

(** C7 as the specification states it fails on the words "surfaced as a
    conflict": a second registration of "ram" is rejected with the
    duplicate-key error of the database, and the handler of
    [POST /auth/register] passes that rejection on; it is not a conflict
    response. *)
Lemma register_duplicate_is_not_conflict :
  register [ram] "ram" "5678" "abc" "u2" = ([ram], Rejected DuplicateKey) ∧
  AuthController.register [ram] "ram" "5678" "abc" "u2"
  = ([ram], Rejected DuplicateKey) ∧
  (AuthController.register [ram] "ram" "5678" "abc" "u2").2 ≠ Rejected Conflict.
Proof.
  split; [reflexivity |]. split; [reflexivity |]. discriminate.
Qed.

End AuthCompositionExamples.

Section ItemsBodies.
Import ItemsService.

(** X16: [create] does not let the request body choose the identifier: an
    [id] sent in the body is overwritten, so the call stores and returns
    the same as for the body without it. *)
Theorem create_ignores_body_id (items : list CreateItemDto)
    (item : CreateItemDto) (v : value) :
  create items (<["id" := v]> item) = create items item ∧
  create items (delete "id" item) = create items item.
Proof.
  unfold create. split.
  - by rewrite insert_insert_eq.
  - by rewrite insert_delete_eq.
Qed.

End ItemsBodies.
